(** * add_ids_to_pictos.py: numbering the records of a JSON list

    A shallow embedding of [src/add_ids_to_pictos.py] and the properties of
    its specification.

    The script reads a JSON file, checks that the root value is a list, sets
    the key ['id'] of the element at position [i] to [i + 1], writes the list
    back and returns its length.  The driver [main] runs it on a fixed path
    and turns the outcome into a printed line and an exit code.

    - Python values produced by [json.load] are the inductive type [json];
      a [dict] is an association list in insertion order (the order in
      which [json.dump] writes the keys).
    - [open], [os.path.exists] and [print] act on an explicit [world]
      (file system, standard output, log of calls), threaded by the monad
      [io], which also carries the raised exception.
    - [json.load], [json.dump] and [repr] belong to the Python runtime, not
      to the script: they are the fields of the class [Runtime]. *)

From Stdlib Require Import ZArith String Ascii List Bool Lia.
From Stdlib Require Import Floats.SpecFloat.
From stdpp Require Import base tactics option list strings pretty gmap.

Local Open Scope string_scope.
Local Open Scope Z_scope.
Local Open Scope list_scope.

(** ** Python values *)

(** The values [json.load] builds: [None], [bool], [int] (unbounded),
    [float] (binary64), [str], [list] and [dict] with [str] keys. *)
#[warnings="-register-all"]
Inductive json : Type :=
| JNull
| JBool (b : bool)
| JInt (n : Z)
| JFloat (x : spec_float)
| JStr (s : string)
| JList (items : list json)
| JDict (entries : list (string * json)).

(** [isinstance(v, list)] and [isinstance(v, dict)]. *)
Definition is_list (v : json) : bool :=
  match v with JList _ => true | _ => false end.

Definition is_dict (v : json) : bool :=
  match v with JDict _ => true | _ => false end.

(** [type(v).__name__]. *)
Definition type_name (v : json) : string :=
  match v with
  | JNull => "NoneType"
  | JBool _ => "bool"
  | JInt _ => "int"
  | JFloat _ => "float"
  | JStr _ => "str"
  | JList _ => "list"
  | JDict _ => "dict"
  end.

(** ** Dictionaries in insertion order *)

Module Dict.
Section ops.
Context {V : Type}.
Implicit Types (k : string) (v : V) (d : list (string * V)).

(** [d[k]], [None] standing for [KeyError]. *)
Fixpoint get k d : option V :=
  match d with
  | [] => None
  | (k', v') :: d' => if decide (k' = k) then Some v' else get k d'
  end.

(** [d[k] = v]: a key already present keeps its place and takes the new
    value; a new key goes to the end. *)
Fixpoint setitem k v d : list (string * V) :=
  match d with
  | [] => [(k, v)]
  | (k', v') :: d' =>
      if decide (k' = k) then (k', v) :: d' else (k', v') :: setitem k v d'
  end.

(** [d.pop(k, None)], the dictionary without the key [k]. *)
Fixpoint remove k d : list (string * V) :=
  match d with
  | [] => []
  | (k', v') :: d' =>
      if decide (k' = k) then remove k d' else (k', v') :: remove k d'
  end.

Definition keys d : list string := d.*1.

(** A Python [dict] holds each key once. *)
Definition wf d : Prop := NoDup (keys d).
End ops.
End Dict.

(** ** Exceptions *)

(** The classes of the exceptions that the operations of the script raise.
    Every one of them derives from [Exception]; asynchronous
    [BaseException]s ([KeyboardInterrupt], [SystemExit]) are outside the
    model. *)
Inductive exn_class : Type :=
| FileNotFoundError
| IsADirectoryError
| PermissionError
| UnicodeDecodeError
| UnicodeEncodeError
| JSONDecodeError
| RecursionError
| ValueError
| TypeError.

(** An exception: its class and [str(e)]. *)
Record exn : Type := Exn { exn_cls : exn_class; exn_str : string }.

Global Instance exn_class_eq_dec : EqDecision exn_class.
Proof. solve_decision. Defined.

Global Instance exn_eq_dec : EqDecision exn.
Proof. solve_decision. Defined.

(** [obj[key] = value] for a [str] key.  Only a [dict] accepts it; a [list]
    rejects the [str] index and every other value has no item assignment. *)
Definition setitem_error (obj : json) : exn :=
  match obj with
  | JList _ => Exn TypeError "list indices must be integers or slices, not str"
  | other =>
      Exn TypeError
        ("'" +:+ type_name other +:+ "' object does not support item assignment")
  end.

Definition setitem (obj : json) (key : string) (value : json) : json + exn :=
  match obj with
  | JDict d => inl (JDict (Dict.setitem key value d))
  | other => inr (setitem_error other)
  end.

(** ** The annotation loop

    [for i, picto in enumerate(pictos): picto['id'] = i + 1], started at
    index [i].  The elements of a freshly loaded list are distinct objects,
    so the in-place updates are the updated list; an exception leaves the
    loop and the list, local to the call, is dropped. *)
Fixpoint stamp_from (i : Z) (pictos : list json) : list json + exn :=
  match pictos with
  | [] => inl []
  | picto :: rest =>
      match setitem picto "id" (JInt (i + 1)) with
      | inr e => inr e
      | inl picto' =>
          match stamp_from (i + 1) rest with
          | inr e => inr e
          | inl rest' => inl (picto' :: rest')
          end
      end
  end.

Definition not_a_list : exn :=
  Exn ValueError "The JSON file does not contain a list at the root level".

(** Lines 29 to 34 of the script: the check of the root value, then the
    loop.  The result is the list handed to [json.dump]. *)
Definition annotate (pictos : json) : list json + exn :=
  match pictos with
  | JList items => stamp_from 0 items
  | _ => inr not_a_list
  end.

(** ** The Python runtime

    What the script takes from the interpreter and its standard library.

    - [json_load data] is [json.load(f)] on a file opened with
      [encoding='utf-8'] whose bytes are [data]: the parsed value, or the
      exception of the decoder ([UnicodeDecodeError], [JSONDecodeError],
      [RecursionError], ...).
    - [json_dump v] is [json.dump(v, f, indent=2, ensure_ascii=False)] on a
      file opened with [encoding='utf-8']: the bytes that reach the file,
      and the exception that cut the output short, if any (a [str] holding
      a lone surrogate has no UTF-8 encoding).
    - [str_repr s] is [repr(s)], which the text of an [OSError] applies to
      the file name. *)
Class Runtime : Type := {
  json_load : string → json + exn;
  json_dump : json → string * option exn;
  str_repr : string → string
}.

(** ** The world: files, standard output, calls *)

(** What a path names: a regular file with its permission bits and bytes,
    or a directory. *)
Inductive node : Type :=
| File (readable writable : bool) (data : string)
| Dir.

Record world : Type := World {
  files : gmap string node;
  (** paths at which no file can be created: their directory is missing *)
  orphans : gset string;
  (** the arguments of the calls of [print], oldest first *)
  stdout : list string;
  (** the arguments of the calls of [add_ids_to_pictos], oldest first *)
  calls : list (string * option string)
}.

Definition with_files (fs : gmap string node) (w : world) : world :=
  World fs (orphans w) (stdout w) (calls w).

(** A computation that reads and changes the world and returns a value or
    raises an exception. *)
Definition io (A : Type) : Type := world → (A + exn) * world.

Global Instance io_ret : MRet io := λ A (a : A) w, (inl a, w).

Global Instance io_bind : MBind io := λ A B (k : A → io B) (m : io A) w,
  match m w with
  | (inl a, w') => k a w'
  | (inr e, w') => (inr e, w')
  end.

Definition raise {A : Type} (e : exn) : io A := λ w, (inr e, w).

(** [try: body  except Exception as e: handler(e)]. *)
Definition try_except {A : Type} (body : io A) (handler : exn → io A) : io A :=
  λ w,
    match body w with
    | (inl a, w') => (inl a, w')
    | (inr e, w') => handler e w'
    end.

(** A value or exception computed without touching the world. *)
Definition lift {A : Type} (r : A + exn) : io A := λ w, (r, w).

(** [print(line)]. *)
Definition print (line : string) : io () :=
  λ w, (inl (), World (files w) (orphans w) (stdout w ++ [line]) (calls w)).

(** Entering [add_ids_to_pictos]: the call is recorded.  The log is not
    part of the script; the statement that the driver does not call the
    function is a statement about it. *)
Definition enter_add_ids (input_file : string) (output_file : option string)
  : io () :=
  λ w, (inl (),
        World (files w) (orphans w) (stdout w)
          (calls w ++ [(input_file, output_file)])).

(** [os.path.exists(path)]: a file or a directory is there. *)
Definition os_path_exists (path : string) : io bool :=
  λ w, (inl (bool_decide (is_Some (files w !! path))), w).

Section runtime.
Context `{RT : Runtime}.

(** [str(e)] of the [OSError] of a failed [open]. *)
Definition os_error (cls : exn_class) (errno : Z) (what path : string) : exn :=
  Exn cls ("[Errno " +:+ pretty errno +:+ "] " +:+ what +:+ ": "
           +:+ str_repr path).

(** [open(path, 'r', encoding='utf-8')] followed by reading the file. *)
Definition open_read (path : string) : io string :=
  λ w,
    match files w !! path with
    | None =>
        (inr (os_error FileNotFoundError 2 "No such file or directory" path), w)
    | Some Dir =>
        (inr (os_error IsADirectoryError 21 "Is a directory" path), w)
    | Some (File false _ _) =>
        (inr (os_error PermissionError 13 "Permission denied" path), w)
    | Some (File true _ data) => (inl data, w)
    end.

(** [open(path, 'w', encoding='utf-8')]: the file is created or emptied. *)
Definition open_write (path : string) : io () :=
  λ w,
    match files w !! path with
    | None =>
        if decide (path ∈ orphans w)
        then (inr (os_error FileNotFoundError 2 "No such file or directory" path), w)
        else (inl (), with_files (<[path := File true true ""]> (files w)) w)
    | Some Dir =>
        (inr (os_error IsADirectoryError 21 "Is a directory" path), w)
    | Some (File _ false _) =>
        (inr (os_error PermissionError 13 "Permission denied" path), w)
    | Some (File r true _) =>
        (inl (), with_files (<[path := File r true ""]> (files w)) w)
    end.

(** Writing [text] to the open file [path] and closing it. *)
Definition write_close (path text : string) : io () :=
  λ w,
    match files w !! path with
    | Some (File r wr _) =>
        (inl (), with_files (<[path := File r wr text]> (files w)) w)
    | _ => (inl (), w)
    end.

(** [with open(input_file, 'r', encoding='utf-8') as f: json.load(f)]. *)
Definition load_file (input_file : string) : io json :=
  data ← open_read input_file;
  lift (json_load data).

(** [with open(output_file, 'w', encoding='utf-8') as f:
      json.dump(pictos, f, indent=2, ensure_ascii=False)].
    Leaving the [with] block closes the file, also on an exception: what
    was written before it stays. *)
Definition dump_file (output_file : string) (pictos : json) : io () :=
  open_write output_file;;
  let '(text, failure) := json_dump pictos in
  write_close output_file text;;
  match failure with
  | Some e => raise e
  | None => mret ()
  end.

(** ** The script *)

(** [add_ids_to_pictos(input_file, output_file=None)]: read, check and
    annotate ([annotate]), write, return the length. *)
Definition add_ids_to_pictos (input_file : string)
    (output_file : option string) : io Z :=
  enter_add_ids input_file output_file;;
  let output_file := default input_file output_file in
  pictos ← load_file input_file;
  pictos ← lift (annotate pictos);
  dump_file output_file (JList pictos);;
  mret (Z.of_nat (length pictos)).

(** The body of [main] for a given [input_file]; the value returned is the
    exit status of the process. *)
Definition main_on (input_file : string) : io Z :=
  found ← os_path_exists input_file;
  if negb found then
    print ("Error: Input file '" +:+ input_file +:+ "' not found.");;
    mret 1
  else
    try_except
      (count ← add_ids_to_pictos input_file None;
       print ("Successfully added IDs to " +:+ pretty count
              +:+ " pictos in '" +:+ input_file +:+ "'.");;
       mret 0)
      (λ e, print ("Error: " +:+ exn_str e);; mret 1).

Definition main : io Z := main_on "src/assets/pictos_list.json".
End runtime.

(** ** A runtime for documents of objects, arrays, strings and integers

    An instance of [Runtime] on which the script can be run on concrete
    files.  Its encoder follows [json.dump(..., indent=2,
    ensure_ascii=False)]; its decoder reads JSON whose numbers are integers
    and whose [\u] escapes stay below 128, and rejects the rest; its [repr]
    is Python's on ASCII text.  Floats are outside this instance: the
    decoder never builds one and the encoder raises on one.  The texts of
    its decoder errors carry no position. *)
Module Mini.

Definition dquote : ascii := "034"%char.
Definition backslash : ascii := "092"%char.
Definition newline : ascii := "010"%char.
Definition squote : ascii := "039"%char.

Definition hex_digit (n : nat) : ascii :=
  ascii_of_nat (if decide (n < 10)%nat then 48 + n else 87 + n).

Definition hex2 (c : ascii) : string :=
  let n := nat_of_ascii c in
  String (hex_digit (n / 16)) (String (hex_digit (n mod 16)) "").

Definition char1 (c : ascii) : string := String c "".

(** *** Encoder *)

Definition escape_char (c : ascii) : string :=
  if decide (c = dquote) then String backslash (char1 dquote)
  else if decide (c = backslash) then String backslash (char1 backslash)
  else if decide (c = newline) then String backslash "n"
  else if decide (c = "013"%char) then String backslash "r"
  else if decide (c = "009"%char) then String backslash "t"
  else if decide (c = "008"%char) then String backslash "b"
  else if decide (c = "012"%char) then String backslash "f"
  else if decide (nat_of_ascii c < 32)%nat
       then String backslash ("u00" +:+ hex2 c)
  else char1 c.

Fixpoint escape (s : string) : string :=
  match s with
  | EmptyString => ""
  | String c r => escape_char c +:+ escape r
  end.

Definition quoted (s : string) : string :=
  String dquote (escape s +:+ char1 dquote).

Fixpoint spaces (n : nat) : string :=
  match n with O => "" | S n => " " +:+ spaces n end.

(** The line break before an item at nesting depth [level]. *)
Definition break (level : nat) : string :=
  String newline (spaces (2 * level)).

Fixpoint join (sep : string) (parts : list string) : string :=
  match parts with
  | [] => ""
  | [p] => p
  | p :: rest => p +:+ sep +:+ join sep rest
  end.

Definition block (opening closing : string) (level : nat)
    (parts : list string) : string :=
  opening +:+ break (S level) +:+ join ("," +:+ break (S level)) parts
  +:+ break level +:+ closing.

Fixpoint encode (level : nat) (v : json) : option string :=
  match v with
  | JNull => Some "null"
  | JBool true => Some "true"
  | JBool false => Some "false"
  | JInt n => Some (pretty n)
  | JFloat _ => None
  | JStr s => Some (quoted s)
  | JList [] => Some "[]"
  | JList items =>
      parts ← (fix each (l : list json) : option (list string) :=
                 match l with
                 | [] => Some []
                 | x :: r =>
                     t ← encode (S level) x; ts ← each r; Some (t :: ts)
                 end) items;
      Some (block "[" "]" level parts)
  | JDict [] => Some "{}"
  | JDict entries =>
      parts ← (fix each (l : list (string * json)) : option (list string) :=
                 match l with
                 | [] => Some []
                 | (k, x) :: r =>
                     t ← encode (S level) x; ts ← each r;
                     Some ((quoted k +:+ ": " +:+ t) :: ts)
                 end) entries;
      Some (block "{" "}" level parts)
  end.

Definition dump (v : json) : string * option exn :=
  match encode 0 v with
  | Some text => (text, None)
  | None => ("", Some (Exn ValueError "float values are not supported"))
  end.

(** *** Decoder *)

Definition is_ws (c : ascii) : bool :=
  bool_decide (c = " "%char ∨ c = "009"%char ∨ c = newline ∨ c = "013"%char).

Fixpoint skip_ws (s : list ascii) : list ascii :=
  match s with
  | c :: r => if is_ws c then skip_ws r else s
  | [] => []
  end.

Fixpoint strip_prefix (p s : list ascii) : option (list ascii) :=
  match p, s with
  | [], _ => Some s
  | a :: p', b :: s' => if decide (a = b) then strip_prefix p' s' else None
  | _ :: _, [] => None
  end.

Definition digit (c : ascii) : option Z :=
  let n := nat_of_ascii c in
  if decide (48 ≤ n ∧ n ≤ 57)%nat then Some (Z.of_nat (n - 48)) else None.

Definition hex_value (c : ascii) : option nat :=
  let n := nat_of_ascii c in
  if decide (48 ≤ n ∧ n ≤ 57)%nat then Some (n - 48)%nat
  else if decide (97 ≤ n ∧ n ≤ 102)%nat then Some (n - 87)%nat
  else if decide (65 ≤ n ∧ n ≤ 70)%nat then Some (n - 55)%nat
  else None.

Fixpoint digits (acc : Z) (s : list ascii) : Z * list ascii :=
  match s with
  | c :: r =>
      match digit c with
      | Some d => digits (10 * acc + d) r
      | None => (acc, s)
      end
  | [] => (acc, [])
  end.

(** An integer: [0] or a digit other than [0] followed by digits; a
    fraction or an exponent after it is rejected. *)
Definition natural (s : list ascii) : option (Z * list ascii) :=
  match s with
  | c :: r =>
      match digit c with
      | Some d =>
          let '(n, rest) := if decide (d = 0) then (0, r) else digits d r in
          match rest with
          | x :: _ =>
              if bool_decide (x = "."%char ∨ x = "e"%char ∨ x = "E"%char)
              then None else Some (n, rest)
          | [] => Some (n, rest)
          end
      | None => None
      end
  | [] => None
  end.

Definition integer (s : list ascii) : option (Z * list ascii) :=
  match s with
  | c :: r =>
      if decide (c = "-"%char)
      then '(n, rest) ← natural r; Some (- n, rest)
      else natural s
  | [] => None
  end.

Definition unescape (c : ascii) : option ascii :=
  if bool_decide (c = dquote ∨ c = backslash ∨ c = "/"%char) then Some c
  else if decide (c = "n"%char) then Some newline
  else if decide (c = "r"%char) then Some "013"%char
  else if decide (c = "t"%char) then Some "009"%char
  else if decide (c = "b"%char) then Some "008"%char
  else if decide (c = "f"%char) then Some "012"%char
  else None.

(** The characters of a string up to its closing quote. *)
Fixpoint string_body (s : list ascii) : option (string * list ascii) :=
  match s with
  | [] => None
  | c :: r =>
      if decide (c = dquote) then Some ("", r)
      else if decide (c = backslash) then
        match r with
        | [] => None
        | e :: r' =>
            if decide (e = "u"%char) then
              match r' with
              | a :: b :: x :: y :: r'' =>
                  if bool_decide (a = "0"%char ∧ b = "0"%char) then
                    hi ← hex_value x; lo ← hex_value y;
                    if decide (hi < 8)%nat then
                      '(body, rest) ← string_body r'';
                      Some (String (ascii_of_nat (16 * hi + lo)) body, rest)
                    else None
                  else None
              | _ => None
              end
            else
              ch ← unescape e;
              '(body, rest) ← string_body r';
              Some (String ch body, rest)
        end
      else if decide (nat_of_ascii c < 32)%nat then None
      else '(body, rest) ← string_body r; Some (String c body, rest)
  end.

Definition lit (s : string) : list ascii := list_ascii_of_string s.

Fixpoint value (fuel : nat) (s : list ascii) : option (json * list ascii) :=
  match fuel with
  | O => None
  | S fuel =>
      let s := skip_ws s in
      match strip_prefix (lit "null") s with Some r => Some (JNull, r) | None =>
      match strip_prefix (lit "true") s with Some r => Some (JBool true, r) | None =>
      match strip_prefix (lit "false") s with Some r => Some (JBool false, r) | None =>
      match strip_prefix [dquote] s with
      | Some r => '(str, rest) ← string_body r; Some (JStr str, rest)
      | None =>
      match strip_prefix (lit "[") s with
      | Some r =>
          match strip_prefix (lit "]") (skip_ws r) with
          | Some rest => Some (JList [], rest)
          | None => '(items, rest) ← elements fuel r; Some (JList items, rest)
          end
      | None =>
      match strip_prefix (lit "{") s with
      | Some r =>
          match strip_prefix (lit "}") (skip_ws r) with
          | Some rest => Some (JDict [], rest)
          | None =>
              '(pairs, rest) ← members fuel r;
              Some (JDict (foldl (λ d kv, Dict.setitem kv.1 kv.2 d) [] pairs),
                    rest)
          end
      | None => '(n, rest) ← integer s; Some (JInt n, rest)
      end end end end end end
  end
with elements (fuel : nat) (s : list ascii)
    : option (list json * list ascii) :=
  match fuel with
  | O => None
  | S fuel =>
      '(v, r) ← value fuel s;
      let r := skip_ws r in
      match strip_prefix (lit ",") r with
      | Some r' => '(vs, rest) ← elements fuel r'; Some (v :: vs, rest)
      | None => rest ← strip_prefix (lit "]") r; Some ([v], rest)
      end
  end
with members (fuel : nat) (s : list ascii)
    : option (list (string * json) * list ascii) :=
  match fuel with
  | O => None
  | S fuel =>
      r ← strip_prefix [dquote] (skip_ws s);
      '(k, r) ← string_body r;
      r ← strip_prefix (lit ":") (skip_ws r);
      '(v, r) ← value fuel r;
      let r := skip_ws r in
      match strip_prefix (lit ",") r with
      | Some r' => '(kvs, rest) ← members fuel r'; Some ((k, v) :: kvs, rest)
      | None => rest ← strip_prefix (lit "}") r; Some ([(k, v)], rest)
      end
  end.

Definition load (data : string) : json + exn :=
  let s := lit data in
  match value (2 * length s + 2) s with
  | Some (v, rest) =>
      match skip_ws rest with
      | [] => inl v
      | _ :: _ => inr (Exn JSONDecodeError "Extra data")
      end
  | None => inr (Exn JSONDecodeError "Expecting value")
  end.

(** *** [repr] of ASCII text *)

Definition repr_char (quote c : ascii) : string :=
  if decide (c = backslash) then String backslash (char1 backslash)
  else if decide (c = quote) then String backslash (char1 quote)
  else if decide (c = newline) then String backslash "n"
  else if decide (c = "013"%char) then String backslash "r"
  else if decide (c = "009"%char) then String backslash "t"
  else if decide (nat_of_ascii c < 32 ∨ nat_of_ascii c = 127)%nat
       then String backslash ("x" +:+ hex2 c)
  else char1 c.

Fixpoint repr_body (quote : ascii) (s : string) : string :=
  match s with
  | EmptyString => ""
  | String c r => repr_char quote c +:+ repr_body quote r
  end.

Fixpoint has_char (c : ascii) (s : string) : bool :=
  match s with
  | EmptyString => false
  | String x r => bool_decide (x = c) || has_char c r
  end.

Definition repr (s : string) : string :=
  let quote :=
    if has_char squote s && negb (has_char dquote s) then dquote else squote in
  String quote (repr_body quote s +:+ char1 quote).

(** Writing a document with a backquote for each double quote. *)
Fixpoint text (s : string) : string :=
  match s with
  | EmptyString => ""
  | String c r => String (if decide (c = "`"%char) then dquote else c) (text r)
  end.

Definition runtime : Runtime :=
  {| json_load := load; json_dump := dump; str_repr := repr |}.
End Mini.

(** ** Notions used in the statements *)

(** The value under the key ['id'] of a record. *)
Definition id_of (v : json) : option json :=
  match v with JDict d => Dict.get "id" d | _ => None end.

(** The value under the key [k] of a record. *)
Definition field (k : string) (v : json) : option json :=
  match v with JDict d => Dict.get k d | _ => None end.

(** A record without its key ['id']. *)
Definition without_id (v : json) : json :=
  match v with JDict d => JDict (Dict.remove "id" d) | _ => v end.

(** The element [x] found at index [i], after the loop. *)
Definition stamped (i : Z) (x : json) : json :=
  match x with
  | JDict d => JDict (Dict.setitem "id" (JInt (i + 1)) d)
  | _ => x
  end.

(** The file the script writes to. *)
Definition destination (input_file : string) (output_file : option string)
  : string := default input_file output_file.

(** The world once the call of [add_ids_to_pictos] is logged. *)
Definition entered (input_file : string) (output_file : option string)
    (w : world) : world :=
  World (files w) (orphans w) (stdout w) (calls w ++ [(input_file, output_file)]).

(** The world after a successful [open(path, 'w')] and the writing of
    [text]: the file keeps its read permission, a new file is readable. *)
Definition rewritten (path text : string) (w : world) : world :=
  let r := match files w !! path with
           | Some (File r _ _) => r
           | _ => true
           end in
  with_files (<[path := File r true text]> (files w)) w.

(** Whether [open(path, 'w')] succeeds. *)
Definition can_write (path : string) (w : world) : bool :=
  match files w !! path with
  | None => bool_decide (path ∉ orphans w)
  | Some (File _ writable _) => writable
  | Some Dir => false
  end.

(** A record holds each of its keys once. *)
Definition wf_record (v : json) : Prop :=
  match v with JDict d => Dict.wf d | _ => True end.

(** A text without a line feed. *)
Fixpoint one_line (s : string) : bool :=
  match s with
  | EmptyString => true
  | String c r => negb (Ascii.eqb c "010"%char) && one_line r
  end.

Definition default_path : string := "src/assets/pictos_list.json".

(** The three ways [open] fails in the model. *)
Inductive open_failure `{RT : Runtime} (path : string) : exn → Prop :=
| open_missing :
    open_failure path
      (os_error FileNotFoundError 2 "No such file or directory" path)
| open_directory :
    open_failure path (os_error IsADirectoryError 21 "Is a directory" path)
| open_denied :
    open_failure path (os_error PermissionError 13 "Permission denied" path).

(** The exceptions a call [add_ids_to_pictos(input_file, output_file)] can
    raise, by the step that raises them: reading, parsing, the check of the
    root, the assignment to an element, opening the destination, writing. *)
Inductive failure `{RT : Runtime} (input_file dst : string) : exn → Prop :=
| read_failure e : open_failure input_file e → failure input_file dst e
| parse_failure data e : json_load data = inr e → failure input_file dst e
| shape_failure : failure input_file dst not_a_list
| element_failure x : ¬ is_dict x → failure input_file dst (setitem_error x)
| create_failure e : open_failure dst e → failure input_file dst e
| write_failure v text e :
    json_dump v = (text, Some e) → failure input_file dst e.

(** The texts of the exceptions of the runtime fit on one line. *)
Definition single_line_errors `{RT : Runtime} : Prop :=
  (∀ data e, json_load data = inr e → one_line (exn_str e)) ∧
  (∀ v text e, json_dump v = (text, Some e) → one_line (exn_str e)) ∧
  one_line (str_repr default_path).

(** The lines [main] prints. *)
Definition success_line (count : Z) (input_file : string) : string :=
  "Successfully added IDs to " +:+ pretty count +:+ " pictos in '"
  +:+ input_file +:+ "'.".

Definition not_found_text (input_file : string) : string :=
  "Input file '" +:+ input_file +:+ "' not found.".

Definition printed (line : string) (w : world) : world :=
  World (files w) (orphans w) (stdout w ++ [line]) (calls w).

(** Worlds and documents of the scenarios of the specification. *)
Module Scenario.
Import Mini.

Definition cat_dog : string := text "[{`name`:`cat`},{`name`:`dog`}]".
Definition cat_object : string := text "{`name`:`cat`}".
Definition cat_99 : string := text "[{`name`:`cat`,`id`:99}]".
Definition cat_then_number : string := text "[{`name`:`cat`}, 7, {`name`:`dog`}]".

(** A world whose only file is the default input, holding [data]. *)
Definition holding (data : string) : world :=
  World {[ default_path := File true true data ]} ∅ [] [].

Definition empty_world : world := World ∅ ∅ [] [].

(** The records of [cat_dog], laid out differently. *)
Definition cat_dog_spaced : string :=
  text "[ {`name`: `cat`} ,  {`name`: `dog`} ]".

(** A world with a read-only input, some output already printed, and a
    stale destination. *)
Definition elsewhere : world :=
  World {[ "in.json" := File true false cat_dog_spaced;
           "out.json" := File false true "stale" ]}
    ∅ ["earlier output"] [].
End Scenario.

(** A runtime whose encoder fails part-way: [Mini], except that
    [json.dump] raises once the opening bracket has reached the file, as
    the encoder of a text file does on a string that has no UTF-8
    encoding. *)
Module Faulty.
Definition dump (v : json) : string * option exn :=
  (String.substring 0 1 (Mini.dump v).1,
   Some (Exn UnicodeEncodeError "surrogates not allowed")).

Definition runtime : Runtime :=
  {| json_load := Mini.load; json_dump := dump; str_repr := Mini.repr |}.
End Faulty.

(** * Properties *)

(** ** Dictionaries *)

Section dict_facts.
Context {V : Type}.
Implicit Types (k : string) (v : V) (d : list (string * V)).

Lemma get_setitem k v d : Dict.get k (Dict.setitem k v d) = Some v.
Proof.
  induction d as [|[k' v'] d IH]; simpl.
  - by rewrite decide_True.
  - destruct (decide (k' = k)) as [->|Hne]; simpl.
    + by rewrite decide_True.
    + by rewrite decide_False.
Qed.

Lemma get_setitem_ne k k' v d :
  k ≠ k' → Dict.get k' (Dict.setitem k v d) = Dict.get k' d.
Proof.
  intros Hne. induction d as [|[k0 v0] d IH]; simpl.
  - by rewrite decide_False.
  - destruct (decide (k0 = k)) as [->|Hk]; simpl.
    + by rewrite !decide_False.
    + destruct (decide (k0 = k')); [done | apply IH].
Qed.

Lemma remove_setitem k v d :
  Dict.remove k (Dict.setitem k v d) = Dict.remove k d.
Proof.
  induction d as [|[k' v'] d IH]; simpl.
  - by rewrite decide_True.
  - destruct (decide (k' = k)) as [->|Hne]; simpl.
    + by rewrite decide_True.
    + by rewrite decide_False, IH.
Qed.

Lemma setitem_setitem k v v' d :
  Dict.setitem k v (Dict.setitem k v' d) = Dict.setitem k v d.
Proof.
  induction d as [|[k' v0] d IH]; simpl.
  - by rewrite decide_True.
  - destruct (decide (k' = k)) as [->|Hne]; simpl.
    + by rewrite decide_True.
    + by rewrite decide_False, IH.
Qed.

(** Assignment keeps the keys in place and appends a new one. *)
Lemma keys_setitem k v d :
  Dict.keys (Dict.setitem k v d)
  = if decide (k ∈ Dict.keys d) then Dict.keys d else Dict.keys d ++ [k].
Proof.
  unfold Dict.keys. induction d as [|[k' v'] d IH].
  - rewrite decide_False; [done | apply not_elem_of_nil].
  - cbn [Dict.setitem fmap list_fmap fst].
    destruct (decide (k' = k)) as [->|Hne]; cbn [fmap list_fmap fst].
    + rewrite decide_True; [done | left].
    + fold (fmap (M:=list) (@fst string V)). rewrite IH.
      destruct (decide (k ∈ d.*1)) as [Hin|Hin].
      * rewrite decide_True; [done | by right].
      * rewrite decide_False; [done |].
        intros [?|?]%elem_of_cons; [by subst | done].
Qed.

Lemma setitem_wf k v d : Dict.wf d → Dict.wf (Dict.setitem k v d).
Proof.
  unfold Dict.wf. rewrite keys_setitem. intros Hd.
  destruct (decide (k ∈ Dict.keys d)) as [|Hin]; [done |].
  apply NoDup_app. split_and!; [done | | apply NoDup_singleton].
  intros x Hx ->%list_elem_of_singleton. done.
Qed.
End dict_facts.

(** ** The loop *)

Section loop_facts.
Implicit Types (i : Z) (k : nat) (x : json) (l out : list json).

Lemma setitem_dict x key value :
  is_dict x → setitem x key value
              = inl (match x with
                     | JDict d => JDict (Dict.setitem key value d)
                     | _ => x
                     end).
Proof. by destruct x. Qed.

Lemma setitem_not_dict x key value :
  ¬ is_dict x → setitem x key value = inr (setitem_error x).
Proof. by destruct x. Qed.

Lemma setitem_error_class x : exn_cls (setitem_error x) = TypeError.
Proof. by destruct x. Qed.

Lemma stamp_from_cons i x l :
  stamp_from i (x :: l)
  = match setitem x "id" (JInt (i + 1)) with
    | inr e => inr e
    | inl x' =>
        match stamp_from (i + 1) l with
        | inr e => inr e
        | inl l' => inl (x' :: l')
        end
    end.
Proof. done. Qed.

(** On records the loop does not fail. *)
Lemma stamp_from_total i l :
  Forall (λ x, is_dict x) l → ∃ out, stamp_from i l = inl out.
Proof.
  intros Hl. revert i. induction Hl as [|x l Hx _ IH]; intros i.
  - by exists [].
  - destruct (IH (i + 1)) as [out Hout].
    rewrite stamp_from_cons, (setitem_dict _ _ _ Hx), Hout. eauto.
Qed.

(** A loop that ends has met records only, and has stamped each one. *)
Lemma stamp_from_inv i l out :
  stamp_from i l = inl out →
  Forall (λ x, is_dict x) l ∧
  Forall2 (λ x y, ∃ j, y = stamped j x) l out.
Proof.
  revert i out. induction l as [|x l IH]; intros i out.
  - intros [= <-]. by split.
  - rewrite stamp_from_cons. destruct x; simpl; try done.
    destruct (stamp_from (i + 1) l) as [l'|] eqn:Hl; [|done].
    intros [= <-]. destruct (IH _ _ Hl) as [Hd H2].
    split; [by constructor |].
    constructor; [by exists i | done].
Qed.

Lemma stamp_from_length i l out :
  stamp_from i l = inl out → length out = length l.
Proof.
  intros [_ H2]%stamp_from_inv. symmetry. by eapply Forall2_length.
Qed.

(** The element at position [k] is the input element stamped [i + k]. *)
Lemma stamp_from_lookup i l out k x :
  stamp_from i l = inl out → l !! k = Some x →
  out !! k = Some (stamped (i + Z.of_nat k) x).
Proof.
  revert i out k. induction l as [|y l IH]; intros i out k; [done |].
  rewrite stamp_from_cons. destruct y; simpl; try done.
  destruct (stamp_from (i + 1) l) as [l'|] eqn:Hl; [|done].
  intros [= <-]. destruct k as [|k]; simpl.
  - intros [= <-]. by rewrite Z.add_0_r.
  - intros Hk. rewrite (IH _ _ _ Hl Hk). do 2 f_equal. lia.
Qed.

(** The loop stops at the first element that is not a record. *)
Lemma stamp_from_first_bad i pre x post :
  Forall (λ y, is_dict y) pre → ¬ is_dict x →
  stamp_from i (pre ++ x :: post) = inr (setitem_error x).
Proof.
  intros Hpre Hx. revert i. induction Hpre as [|y pre Hy _ IH]; intros i.
  - simpl app. by rewrite stamp_from_cons, (setitem_not_dict _ _ _ Hx).
  - simpl app. by rewrite stamp_from_cons, (setitem_dict _ _ _ Hy), IH.
Qed.

(** A list with an element that is not a record splits at the first. *)
Lemma first_bad_split l :
  Exists (λ x, ¬ is_dict x) l →
  ∃ pre x post,
    l = pre ++ x :: post ∧ Forall (λ y, is_dict y) pre ∧ ¬ is_dict x.
Proof.
  induction l as [|y l IH]; intros Hex; [by apply Exists_nil in Hex |].
  destruct (is_dict y) eqn:Hy.
  - apply Exists_cons in Hex as [Hbad|Hex]; [by rewrite Hy in Hbad |].
    destruct (IH Hex) as (pre & x & post & -> & Hpre & Hx).
    exists (y :: pre), x, post. split_and!; [done | | done].
    constructor; [by rewrite Hy | done].
  - exists [], y, l. split_and!; [done | apply Forall_nil_2 |].
    rewrite Hy. by intros [].
Qed.

Lemma without_id_stamped j x : without_id (stamped j x) = without_id x.
Proof. destruct x; simpl; try done. by rewrite remove_setitem. Qed.

Lemma field_stamped j (key : string) x :
  key ≠ "id" → field key (stamped j x) = field key x.
Proof.
  intros Hk. destruct x; simpl; try done. by rewrite get_setitem_ne.
Qed.

Lemma stamped_stamped j x : stamped j (stamped j x) = stamped j x.
Proof. destruct x; simpl; try done. by rewrite setitem_setitem. Qed.

(** Stamping a stamped list again changes nothing. *)
Lemma stamp_from_again i l out :
  stamp_from i l = inl out → stamp_from i out = inl out.
Proof.
  revert i out. induction l as [|x l IH]; intros i out.
  - by intros [= <-].
  - rewrite stamp_from_cons. destruct x; simpl; try done.
    destruct (stamp_from (i + 1) l) as [l'|] eqn:Hl; [|done].
    intros [= <-]. rewrite stamp_from_cons. simpl.
    by rewrite (IH _ _ Hl), setitem_setitem.
Qed.
End loop_facts.

(** ** Runs of the script *)

Section run_facts.
Context `{RT : Runtime}.
Implicit Types (w : world) (e : exn) (path data : string).

Lemma open_read_file path w wr data :
  files w !! path = Some (File true wr data) →
  open_read path w = (inl data, w).
Proof. intros H. unfold open_read. by rewrite H. Qed.

(** Opening for reading changes nothing, and succeeds on a readable
    regular file only. *)
Lemma open_read_inv path w r w' :
  open_read path w = (r, w') →
  w' = w ∧
  match r with
  | inl data => ∃ wr, files w !! path = Some (File true wr data)
  | inr e =>
      e = os_error FileNotFoundError 2 "No such file or directory" path
      ∨ e = os_error IsADirectoryError 21 "Is a directory" path
      ∨ e = os_error PermissionError 13 "Permission denied" path
  end.
Proof.
  unfold open_read.
  destruct (files w !! path) as [[[] wr data|]|]; intros [= <- <-]; eauto.
Qed.

Lemma open_write_inv path w r w' :
  open_write path w = (r, w') →
  match r with
  | inl _ => can_write path w ∧ w' = rewritten path "" w
  | inr e =>
      ¬ can_write path w ∧ w' = w ∧
      (e = os_error FileNotFoundError 2 "No such file or directory" path
       ∨ e = os_error IsADirectoryError 21 "Is a directory" path
       ∨ e = os_error PermissionError 13 "Permission denied" path)
  end.
Proof.
  unfold open_write, can_write, rewritten.
  destruct (files w !! path) as [[rd [] data|]|] eqn:Hp;
    try (intros [= <- <-]; naive_solver).
  destruct (decide (path ∈ orphans w)) as [Hin|Hin]; intros [= <- <-].
  - split_and!; [| done | by left].
    rewrite bool_decide_false; [by intros [] | by intros Hn].
  - split; [by rewrite bool_decide_true | done].
Qed.

Lemma write_close_rewritten path text w :
  write_close path text (rewritten path "" w) = (inl (), rewritten path text w).
Proof.
  unfold write_close, rewritten, with_files. simpl.
  rewrite lookup_insert_eq. by rewrite insert_insert_eq.
Qed.

Lemma dump_file_spec path v w :
  dump_file path v w =
    match open_write path w with
    | (inr e, _) => (inr e, w)
    | (inl _, _) =>
        let w' := rewritten path (json_dump v).1 w in
        match (json_dump v).2 with
        | Some e => (inr e, w')
        | None => (inl (), w')
        end
    end.
Proof.
  unfold dump_file. unfold mbind at 1, io_bind at 1.
  destruct (open_write path w) as [[[]|e] w'] eqn:Hopen;
    apply open_write_inv in Hopen.
  - destruct Hopen as [_ ->]. destruct (json_dump v) as [text [e|]]; simpl;
      unfold mbind, io_bind; by rewrite write_close_rewritten.
  - by destruct Hopen as (_ & -> & _).
Qed.

(** The script, step by step. *)
Lemma add_ids_to_pictos_spec input_file output_file w :
  let w0 := entered input_file output_file w in
  let dst := destination input_file output_file in
  add_ids_to_pictos input_file output_file w =
    match open_read input_file w0 with
    | (inr e, _) => (inr e, w0)
    | (inl data, _) =>
        match json_load data with
        | inr e => (inr e, w0)
        | inl doc =>
            match annotate doc with
            | inr e => (inr e, w0)
            | inl out =>
                match dump_file dst (JList out) w0 with
                | (inr e, w') => (inr e, w')
                | (inl _, w') => (inl (Z.of_nat (length out)), w')
                end
            end
        end
    end.
Proof.
  intros w0 dst.
  unfold add_ids_to_pictos, load_file, enter_add_ids, mbind, io_bind, mret,
    io_ret, lift.
  change (World (files w) (orphans w) (stdout w)
            (calls w ++ [(input_file, output_file)])) with w0.
  change (default input_file output_file) with dst.
  destruct (open_read input_file w0) as [[data|e] w1] eqn:Hread;
    apply open_read_inv in Hread as [-> _]; [|done].
  destruct (json_load data) as [doc|e]; [|done].
  destruct (annotate doc) as [out|e]; [|done].
  by destruct (dump_file dst (JList out) w0) as [[[]|e] w'].
Qed.

Lemma open_write_can path w :
  can_write path w → open_write path w = (inl (), rewritten path "" w).
Proof.
  intros Hcan. destruct (open_write path w) as [[[]|e] w'] eqn:Hopen;
    apply open_write_inv in Hopen.
  - by destruct Hopen as [_ ->].
  - by destruct Hopen as [Hno _].
Qed.

(** A failure before the writing step leaves the files as they were. *)
Lemma add_ids_fails_early input_file output_file w wr data doc e :
  files w !! input_file = Some (File true wr data) →
  json_load data = inl doc →
  annotate doc = inr e →
  add_ids_to_pictos input_file output_file w
  = (inr e, entered input_file output_file w).
Proof.
  intros Hfile Hload Hann. rewrite add_ids_to_pictos_spec.
  rewrite (open_read_file _ _ wr data) by done. by rewrite Hload, Hann.
Qed.

(** What a successful run has gone through. *)
Lemma add_ids_returns_inv input_file output_file w n w' :
  add_ids_to_pictos input_file output_file w = (inl n, w') →
  ∃ wr data doc out,
    files w !! input_file = Some (File true wr data) ∧
    json_load data = inl doc ∧
    annotate doc = inl out ∧
    n = Z.of_nat (length out) ∧
    (json_dump (JList out)).2 = None ∧
    can_write (destination input_file output_file) w ∧
    w' = rewritten (destination input_file output_file)
           (json_dump (JList out)).1 (entered input_file output_file w).
Proof.
  rewrite add_ids_to_pictos_spec.
  destruct (open_read _ _) as [[data|e] w1] eqn:Hread; [|done].
  apply open_read_inv in Hread as [_ [wr Hfile]].
  destruct (json_load data) as [doc|e] eqn:Hload; [|done].
  destruct (annotate doc) as [out|e] eqn:Hann; [|done].
  rewrite dump_file_spec.
  destruct (open_write _ _) as [[[]|e] w2] eqn:Hopen; [|done].
  apply open_write_inv in Hopen as [Hcan _].
  destruct (json_dump (JList out)) as [text [e|]] eqn:Hdump; [done|].
  simpl. intros [= <- <-]. exists wr, data, doc, out.
  split_and!; try done; by rewrite Hdump.
Qed.

(** When every step succeeds, so does the run. *)
Lemma add_ids_returns input_file output_file w wr data doc out :
  files w !! input_file = Some (File true wr data) →
  json_load data = inl doc →
  annotate doc = inl out →
  can_write (destination input_file output_file) w →
  (json_dump (JList out)).2 = None →
  add_ids_to_pictos input_file output_file w
  = (inl (Z.of_nat (length out)),
     rewritten (destination input_file output_file)
       (json_dump (JList out)).1 (entered input_file output_file w)).
Proof.
  intros Hfile Hload Hann Hcan Hdump. rewrite add_ids_to_pictos_spec.
  rewrite (open_read_file _ _ wr data) by done. rewrite Hload, Hann.
  rewrite dump_file_spec, open_write_can by done. by rewrite Hdump.
Qed.

(** A run prints nothing, and logs its call. *)
Lemma add_ids_frame input_file output_file w r w' :
  add_ids_to_pictos input_file output_file w = (r, w') →
  stdout w' = stdout w ∧
  orphans w' = orphans w ∧
  calls w' = calls w ++ [(input_file, output_file)].
Proof.
  rewrite add_ids_to_pictos_spec.
  destruct (open_read _ _) as [[data|e] w1]; [|by intros [= <- <-]].
  destruct (json_load data) as [doc|e]; [|by intros [= <- <-]].
  destruct (annotate doc) as [out|e]; [|by intros [= <- <-]].
  rewrite dump_file_spec.
  destruct (open_write _ _) as [[[]|e] w2]; [|by intros [= <- <-]].
  simpl. by destruct (json_dump (JList out)).2; intros [= <- <-].
Qed.

Lemma files_rewritten path text w :
  ∃ r, files (rewritten path text w) !! path = Some (File r true text).
Proof. unfold rewritten. simpl. eexists. apply lookup_insert_eq. Qed.
End run_facts.

(** ** The claims of the specification *)

(** C1. When the root is a list of records, the loop succeeds and the
    output element at the zero-based position [i] is a record whose ['id']
    is [i + 1], whatever the input element held under ['id'] before; the
    record still holds each key once, so the prior value is gone. *)
Theorem ids_follow_positions (items : list json) :
  Forall (λ x, is_dict x) items →
  ∃ out,
    annotate (JList items) = inl out ∧
    length out = length items ∧
    ∀ (i : nat) (x : json), items !! i = Some x →
      ∃ y, out !! i = Some y ∧ is_dict y ∧
           id_of y = Some (JInt (Z.of_nat i + 1)) ∧
           (wf_record x → wf_record y).
Proof.
  intros Hitems. destruct (stamp_from_total 0 items Hitems) as [out Hout].
  exists out. split_and!; [done | by eapply stamp_from_length |].
  intros i x Hx. exists (stamped (0 + Z.of_nat i) x).
  split; [by eapply stamp_from_lookup |].
  rewrite Z.add_0_l. rewrite Forall_lookup in Hitems.
  specialize (Hitems i x Hx). destruct x as [| | | | | |d]; try done.
  simpl. split_and!; [done | apply get_setitem | apply setitem_wf].
Qed.

(** [ids_follow_positions] on two records, the first of which comes with
    an ['id']. *)
Lemma ids_follow_positions_witness :
  ∃ out,
    annotate (JList [JDict [("name", JStr "cat"); ("id", JInt 99)];
                     JDict [("name", JStr "dog")]]) = inl out ∧
    length out = 2%nat ∧
    ∀ (i : nat) (x : json),
      [JDict [("name", JStr "cat"); ("id", JInt 99)];
       JDict [("name", JStr "dog")]] !! i = Some x →
      ∃ y, out !! i = Some y ∧ is_dict y ∧
           id_of y = Some (JInt (Z.of_nat i + 1)) ∧
           (wf_record x → wf_record y).
Proof.
  apply (ids_follow_positions
           [JDict [("name", JStr "cat"); ("id", JInt 99)];
            JDict [("name", JStr "dog")]]).
  repeat constructor.
Defined.

(** C2. On a list of records the output has the length and the order of
    the input: position by position the output record without ['id'] is the
    input record without ['id'], and every key other than ['id'] has the
    value it had. *)
Theorem annotation_preserves_records (items : list json) :
  Forall (λ x, is_dict x) items →
  ∃ out,
    annotate (JList items) = inl out ∧
    length out = length items ∧
    without_id <$> out = without_id <$> items ∧
    ∀ (i : nat) (x y : json) (key : string),
      items !! i = Some x → out !! i = Some y → key ≠ "id" →
      field key y = field key x.
Proof.
  intros Hitems. destruct (stamp_from_total 0 items Hitems) as [out Hout].
  exists out. split_and!; [done | by eapply stamp_from_length | |].
  - apply list_eq. intros i. rewrite !list_lookup_fmap.
    destruct (items !! i) as [x|] eqn:Hx.
    + rewrite (stamp_from_lookup _ _ _ _ _ Hout Hx). simpl.
      by rewrite without_id_stamped.
    + apply lookup_ge_None in Hx. rewrite <- (stamp_from_length _ _ _ Hout) in Hx.
      apply lookup_ge_None in Hx. by rewrite Hx.
  - intros i x y key Hx Hy Hkey.
    rewrite (stamp_from_lookup _ _ _ _ _ Hout Hx) in Hy.
    injection Hy as <-. by apply field_stamped.
Qed.

(** [annotation_preserves_records] on two records with other keys. *)
Lemma annotation_preserves_records_witness :
  ∃ out,
    annotate (JList [JDict [("id", JInt 99); ("name", JStr "cat")];
                     JDict [("name", JStr "dog"); ("legs", JInt 4)]])
    = inl out ∧
    length out = 2%nat ∧
    without_id <$> out
    = [JDict [("name", JStr "cat")];
       JDict [("name", JStr "dog"); ("legs", JInt 4)]] ∧
    ∀ (i : nat) (x y : json) (key : string),
      [JDict [("id", JInt 99); ("name", JStr "cat")];
       JDict [("name", JStr "dog"); ("legs", JInt 4)]] !! i = Some x →
      out !! i = Some y → key ≠ "id" → field key y = field key x.
Proof.
  apply (annotation_preserves_records
           [JDict [("id", JInt 99); ("name", JStr "cat")];
            JDict [("name", JStr "dog"); ("legs", JInt 4)]]).
  repeat constructor.
Defined.

(** C3. A run that returns has read a list, and returns its length; the
    destination then holds the encoding of the annotated list.  For the
    empty list the count is 0 and the list written is empty. *)
Theorem count_is_length `{RT : Runtime} (input_file : string)
    (output_file : option string) (w w' : world) (n : Z) :
  add_ids_to_pictos input_file output_file w = (inl n, w') →
  ∃ wr data items out r,
    files w !! input_file = Some (File true wr data) ∧
    json_load data = inl (JList items) ∧
    n = Z.of_nat (length items) ∧
    annotate (JList items) = inl out ∧
    files w' !! destination input_file output_file
    = Some (File r true (json_dump (JList out)).1) ∧
    (items = [] → n = 0 ∧ out = []).
Proof.
  intros (wr & data & doc & out & Hfile & Hload & Hann & -> & _ & _ & ->)
    %add_ids_returns_inv.
  destruct doc as [| | | | |items|]; try done.
  destruct (files_rewritten (destination input_file output_file)
              (json_dump (JList out)).1 (entered input_file output_file w))
    as [r Hr].
  exists wr, data, items, out, r. simpl in Hann.
  split_and!; try done.
  - by rewrite (stamp_from_length _ _ _ Hann).
  - intros ->. by injection Hann as <-.
Qed.

(** C4. When the root of the parsed document is not a list, the call raises
    the [ValueError] of the shape check and no file has changed. *)
Theorem non_list_root_is_rejected `{RT : Runtime} (input_file : string)
    (output_file : option string) (w : world) (wr : bool) (data : string)
    (doc : json) :
  files w !! input_file = Some (File true wr data) →
  json_load data = inl doc →
  ¬ is_list doc →
  ∃ e w',
    add_ids_to_pictos input_file output_file w = (inr e, w') ∧
    exn_cls e = ValueError ∧
    files w' = files w.
Proof.
  intros Hfile Hload Hdoc. exists not_a_list, (entered input_file output_file w).
  split_and!; [|done|done].
  eapply add_ids_fails_early; [done..|]. by destruct doc.
Qed.

(** [count_is_length] on the run of the script over two records. *)
Lemma count_is_length_witness :
  let w := Scenario.holding Scenario.cat_dog in
  let run := @add_ids_to_pictos Mini.runtime default_path None w in
  run.1 = inl 2 ∧
  ∃ wr data items out r,
    files w !! default_path = Some (File true wr data) ∧
    Mini.load data = inl (JList items) ∧
    2 = Z.of_nat (length items) ∧
    annotate (JList items) = inl out ∧
    files run.2 !! default_path = Some (File r true (Mini.dump (JList out)).1) ∧
    (items = [] → 2 = 0 ∧ out = []).
Proof.
  intros w run. split; [by vm_compute |].
  apply (count_is_length (RT := Mini.runtime) default_path None w run.2 2).
  by vm_compute.
Defined.

(** [non_list_root_is_rejected] on a file that holds one object. *)
Lemma non_list_root_is_rejected_witness :
  let w := Scenario.holding Scenario.cat_object in
  ∃ e w',
    @add_ids_to_pictos Mini.runtime default_path None w = (inr e, w') ∧
    exn_cls e = ValueError ∧
    files w' = files w.
Proof.
  intros w.
  apply (non_list_root_is_rejected (RT := Mini.runtime) default_path None w
           true Scenario.cat_object (JDict [("name", JStr "cat")])).
  - by vm_compute.
  - by vm_compute.
  - by vm_compute.
Defined.

(** ** The driver *)

Section driver_facts.
Context `{RT : Runtime}.
Implicit Types (w : world) (e : exn).

Lemma one_line_app (a b : string) :
  one_line (a +:+ b) = one_line a && one_line b.
Proof.
  induction a as [|c a IH]; simpl; [done |].
  by rewrite IH, andb_assoc.
Qed.

(** The driver, step by step. *)
Lemma main_on_spec input_file w :
  main_on input_file w =
    match files w !! input_file with
    | None => (inl 1, printed ("Error: " +:+ not_found_text input_file) w)
    | Some _ =>
        match add_ids_to_pictos input_file None w with
        | (inl n, w') => (inl 0, printed (success_line n input_file) w')
        | (inr e, w') => (inl 1, printed ("Error: " +:+ exn_str e) w')
        end
    end.
Proof.
  unfold main_on, os_path_exists, try_except.
  unfold mbind at 1, io_bind at 1.
  destruct (files w !! input_file) as [nd|] eqn:Hfile.
  - rewrite bool_decide_true by eauto. simpl.
    unfold mbind at 1, io_bind at 1.
    by destruct (add_ids_to_pictos input_file None w) as [[n|e] w'].
  - rewrite bool_decide_false by (by intros [? ?]). done.
Qed.

Lemma stamp_from_raises_inv (i : Z) (l : list json) e :
  stamp_from i l = inr e → ∃ x, x ∈ l ∧ ¬ is_dict x ∧ e = setitem_error x.
Proof.
  revert i. induction l as [|x l IH]; intros i; [done |].
  rewrite stamp_from_cons. destruct (is_dict x) eqn:Hx.
  - rewrite setitem_dict by by rewrite Hx.
    destruct (stamp_from (i + 1) l) as [l'|e'] eqn:Hl; [done |].
    intros [= ->]. destruct (IH _ Hl) as (y & Hy & Hbad & ->).
    exists y. split; [by right | done].
  - assert (¬ is_dict x) as Hbad by (rewrite Hx; by intros []).
    rewrite setitem_not_dict by done. intros [= <-].
    exists x. split; [by left | done].
Qed.

(** Every exception of a run comes from one of its steps. *)
Lemma add_ids_raises_inv input_file output_file w e w' :
  add_ids_to_pictos input_file output_file w = (inr e, w') →
  failure input_file (destination input_file output_file) e.
Proof.
  rewrite add_ids_to_pictos_spec.
  destruct (open_read _ _) as [[data|e0] w1] eqn:Hread.
  - destruct (json_load data) as [doc|e0] eqn:Hload;
      [| intros [= <- _]; by eapply parse_failure].
    destruct (annotate doc) as [out|e0] eqn:Hann.
    + rewrite dump_file_spec.
      destruct (open_write _ _) as [[[]|e0] w2] eqn:Hopen.
      * destruct (json_dump (JList out)) as [text [e0|]] eqn:Hdump; [|done].
        simpl. intros [= <- _]. by eapply write_failure.
      * intros [= <- _]. apply open_write_inv in Hopen as (_ & _ & Hcase).
        apply create_failure.
        destruct Hcase as [-> | [-> | ->]]; constructor.
    + intros [= <- _]. destruct doc; try (injection Hann as <-; apply shape_failure).
      simpl in Hann. apply stamp_from_raises_inv in Hann as (x & _ & Hx & ->).
      by apply element_failure.
  - intros [= <- _]. apply open_read_inv in Hread as [_ Hcase].
    apply read_failure. destruct Hcase as [-> | [-> | ->]]; constructor.
Qed.

Lemma open_failure_one_line path e :
  one_line (str_repr path) → open_failure path e → one_line (exn_str e).
Proof.
  intros Hrepr%Is_true_true [| |]; unfold os_error; simpl exn_str;
    rewrite !one_line_app, Hrepr; by vm_compute.
Qed.

Lemma failure_one_line e :
  single_line_errors → failure default_path default_path e →
  one_line (exn_str e).
Proof.
  intros (Hload & Hdump & Hrepr) [e' He|data e' He| |x Hx|e' He|v text e' He].
  - by eapply open_failure_one_line.
  - by eapply Hload.
  - by vm_compute.
  - by destruct x.
  - by eapply open_failure_one_line.
  - by eapply Hdump.
Qed.
End driver_facts.

(** The exceptions of the runtime [Mini] fit on one line. *)
Lemma mini_single_line_errors : @single_line_errors Mini.runtime.
Proof.
  split_and!.
  - intros data e. simpl. unfold Mini.load.
    destruct (Mini.value _ _) as [[v rest]|]; [|by intros [= <-]].
    destruct (Mini.skip_ws rest); [done | by intros [= <-]].
  - intros v text e. simpl. unfold Mini.dump.
    destruct (Mini.encode 0 v); [done | by intros [= _ <-]].
  - by vm_compute.
Qed.

(** C5, as the specification words it, fails: on the object
    [{"name":"cat"}] the exception raised does not read
    "root value is not a list", and the driver does not print that text. *)
Lemma shape_error_text_counterexample :
  let w := Scenario.holding Scenario.cat_object in
  Mini.load Scenario.cat_object = inl (JDict [("name", JStr "cat")]) ∧
  (∃ e, annotate (JDict [("name", JStr "cat")]) = inr e ∧
        exn_str e ≠ "root value is not a list") ∧
  stdout (@main Mini.runtime w).2 ≠ ["Error: root value is not a list"] ∧
  stdout (@main Mini.runtime w).2 ≠ ["root value is not a list"].
Proof.
  intros w. split_and!; [by vm_compute | | by vm_compute | by vm_compute].
  exists not_a_list. split; [done | by vm_compute].
Qed.

(** C5, amended.  When the root of the parsed document is not a list, the
    exception raised is the [ValueError] whose text is
    "The JSON file does not contain a list at the root level"; the driver
    prints that text after "Error: " and returns 1, and no file changes. *)
Theorem shape_error_text `{RT : Runtime} (w : world) (wr : bool)
    (data : string) (doc : json) :
  files w !! default_path = Some (File true wr data) →
  json_load data = inl doc →
  ¬ is_list doc →
  annotate doc
  = inr (Exn ValueError
           "The JSON file does not contain a list at the root level") ∧
  ∃ w',
    main w = (inl 1, w') ∧
    stdout w'
    = stdout w
      ++ ["Error: The JSON file does not contain a list at the root level"] ∧
    files w' = files w.
Proof.
  intros Hfile Hload Hdoc.
  assert (annotate doc = inr not_a_list) as Hann by by destruct doc.
  split; [done |]. unfold main. fold default_path.
  rewrite main_on_spec, Hfile.
  rewrite (add_ids_fails_early _ _ _ _ _ _ _ Hfile Hload Hann).
  by eexists.
Qed.

(** [shape_error_text] on a file that holds one object. *)
Lemma shape_error_text_witness :
  let w := Scenario.holding Scenario.cat_object in
  annotate (JDict [("name", JStr "cat")])
  = inr (Exn ValueError
           "The JSON file does not contain a list at the root level") ∧
  ∃ w',
    @main Mini.runtime w = (inl 1, w') ∧
    stdout w'
    = stdout w
      ++ ["Error: The JSON file does not contain a list at the root level"] ∧
    files w' = files w.
Proof.
  intros w.
  apply (shape_error_text (RT := Mini.runtime) w true Scenario.cat_object
           (JDict [("name", JStr "cat")])); by vm_compute.
Defined.

(** C6. When nothing exists at the input path, the driver prints
    "Error: Input file '<path>' not found." and returns 1; the log of calls
    is as before, so [add_ids_to_pictos] has not been called, and no file
    has changed.  It holds for every path given to [main_on], and so for
    the path of [main]. *)
Theorem missing_input_is_reported `{RT : Runtime} (input_file : string)
    (w : world) :
  files w !! input_file = None →
  ∃ w',
    main_on input_file w = (inl 1, w') ∧
    stdout w'
    = stdout w ++ ["Error: Input file '" +:+ input_file +:+ "' not found."] ∧
    calls w' = calls w ∧
    files w' = files w ∧
    (input_file = default_path → main w = (inl 1, w')).
Proof.
  intros Hfile. rewrite main_on_spec, Hfile. eexists. split_and!; try done.
  intros ->. unfold main. fold default_path. by rewrite main_on_spec, Hfile.
Qed.

(** [missing_input_is_reported] in a world without files. *)
Lemma missing_input_is_reported_witness :
  ∃ w',
    @main_on Mini.runtime default_path Scenario.empty_world = (inl 1, w') ∧
    stdout w'
    = ["Error: Input file 'src/assets/pictos_list.json' not found."] ∧
    calls w' = [] ∧
    files w' = ∅ ∧
    (default_path = default_path →
     @main Mini.runtime Scenario.empty_world = (inl 1, w')).
Proof.
  apply (missing_input_is_reported (RT := Mini.runtime) default_path
           Scenario.empty_world).
  by vm_compute.
Defined.

(** C7. The driver always returns, with exit code 0 or 1.  The code is 0
    exactly when the input exists and the call of [add_ids_to_pictos]
    returns; the line printed then reports the count.  With code 1 the
    driver has printed one line, "Error: " followed by the not-found text
    or by the text of the exception raised by one of the steps of the call
    (reading, parsing, the check of the root, the assignment to an element,
    opening the destination, writing); that line holds no line feed when
    the texts of the runtime hold none. *)
Theorem exit_code_reflects_outcome `{RT : Runtime} (w : world) :
  ∃ code w',
    main w = (inl code, w') ∧
    (code = 0 ∨ code = 1) ∧
    (code = 0 ↔
       is_Some (files w !! default_path) ∧
       ∃ n w1, add_ids_to_pictos default_path None w = (inl n, w1)) ∧
    (code = 0 →
       ∃ n, stdout w' = stdout w ++ [success_line n default_path]) ∧
    (code = 1 →
       ∃ text,
         stdout w' = stdout w ++ ["Error: " +:+ text] ∧
         (files w !! default_path = None ∧ text = not_found_text default_path
          ∨ ∃ e w1,
              add_ids_to_pictos default_path None w = (inr e, w1) ∧
              failure default_path default_path e ∧
              text = exn_str e) ∧
         (single_line_errors → one_line ("Error: " +:+ text))).
Proof.
  unfold main. fold default_path. rewrite main_on_spec.
  destruct (files w !! default_path) as [nd|] eqn:Hfile.
  - destruct (add_ids_to_pictos default_path None w) as [[n|e] w1] eqn:Hrun;
      pose proof (proj1 (add_ids_frame _ _ _ _ _ Hrun)) as Hout.
    + exists 0, (printed (success_line n default_path) w1).
      split_and!; [done | by left | | | done].
      * split; [|done]. intros _. split; [done | by exists n, w1].
      * intros _. exists n. simpl. by rewrite Hout.
    + exists 1, (printed ("Error: " +:+ exn_str e) w1).
      split_and!; [done | by right | | done |].
      * split; [done |]. by intros (_ & n & w2 & ?).
      * intros _. exists (exn_str e).
        pose proof (add_ids_raises_inv _ _ _ _ _ Hrun) as Hfail.
        split_and!.
        -- simpl. by rewrite Hout.
        -- right. by exists e, w1.
        -- intros Hlines. rewrite one_line_app.
           by rewrite (Is_true_true_1 _ (failure_one_line _ Hlines Hfail)).
  - exists 1, (printed ("Error: " +:+ not_found_text default_path) w).
    split_and!; [done | by right | | done |].
    + split; [done |]. by intros [[? ?] _].
    + intros _. exists (not_found_text default_path).
      split_and!; [done | by left |]. intros _. by vm_compute.
Qed.

(** [exit_code_reflects_outcome] on a list whose second element is a
    number: exit code 1 and one line, by the texts of [Mini]. *)
Lemma exit_code_reflects_outcome_witness :
  let w := Scenario.holding Scenario.cat_then_number in
  @main Mini.runtime w
  = (inl 1,
     printed "Error: 'int' object does not support item assignment"
       (entered default_path None w)) ∧
  one_line "Error: 'int' object does not support item assignment".
Proof.
  intros w.
  destruct (exit_code_reflects_outcome (RT := Mini.runtime) w)
    as (code & w' & Hmain & _ & _ & _ & Hfail).
  assert (@main Mini.runtime w
          = (inl 1,
             printed "Error: 'int' object does not support item assignment"
               (entered default_path None w))) as Hrun by by vm_compute.
  split; [exact Hrun |].
  rewrite Hrun in Hmain. injection Hmain as <- <-.
  destruct (Hfail eq_refl) as (text & Hout & _ & Hline).
  vm_compute in Hout. injection Hout as Htext.
  change ("'int' object does not support item assignment" = text) in Htext.
  rewrite <- Htext in Hline. exact (Hline mini_single_line_errors).
Defined.

(** C8. Let the parsed document be a list.  If some element is not a
    record, the call raises the [TypeError] of the assignment to the first
    such element (the elements before it were accepted: nothing checks the
    elements ahead of the loop), and no file has changed.  If every element
    is a record, the loop raises nothing. *)
Theorem non_record_element_raises `{RT : Runtime} (input_file : string)
    (output_file : option string) (w : world) (wr : bool) (data : string)
    (items : list json) :
  files w !! input_file = Some (File true wr data) →
  json_load data = inl (JList items) →
  (Exists (λ x, ¬ is_dict x) items →
   ∃ pre x post w',
     items = pre ++ x :: post ∧
     Forall (λ y, is_dict y) pre ∧ ¬ is_dict x ∧
     add_ids_to_pictos input_file output_file w = (inr (setitem_error x), w') ∧
     exn_cls (setitem_error x) = TypeError ∧
     files w' = files w) ∧
  (Forall (λ x, is_dict x) items → ∃ out, stamp_from 0 items = inl out).
Proof.
  intros Hfile Hload. split; [|apply stamp_from_total].
  intros (pre & x & post & -> & Hpre & Hx)%first_bad_split.
  exists pre, x, post, (entered input_file output_file w).
  split_and!; [done.. | | apply setitem_error_class | done].
  eapply add_ids_fails_early; [done..|].
  by apply stamp_from_first_bad.
Qed.

(** [non_record_element_raises] on a list whose second element is a
    number. *)
Lemma non_record_element_raises_witness :
  let w := Scenario.holding Scenario.cat_then_number in
  let items := [JDict [("name", JStr "cat")]; JInt 7;
                JDict [("name", JStr "dog")]] in
  (Exists (λ x, ¬ is_dict x) items →
   ∃ pre x post w',
     items = pre ++ x :: post ∧
     Forall (λ y, is_dict y) pre ∧ ¬ is_dict x ∧
     @add_ids_to_pictos Mini.runtime default_path None w
     = (inr (setitem_error x), w') ∧
     exn_cls (setitem_error x) = TypeError ∧
     files w' = files w) ∧
  (Forall (λ x, is_dict x) items → ∃ out, stamp_from 0 items = inl out).
Proof.
  intros w items.
  apply (non_record_element_raises (RT := Mini.runtime) default_path None w
           true Scenario.cat_then_number items); by vm_compute.
Defined.

(** C9. Annotating is idempotent.  On a list of records, annotating the
    annotated list gives the annotated list again.  For the program run in
    place: when a first run returns and the decoder reads back the list the
    encoder wrote, a second run returns the same count and leaves every
    file as the first run left it. *)
Theorem annotation_is_idempotent `{RT : Runtime} (items : list json) :
  Forall (λ x, is_dict x) items →
  ∃ out,
    annotate (JList items) = inl out ∧
    annotate (JList out) = inl out ∧
    ∀ (path : string) (w w1 : world) (wr : bool) (data : string) (n : Z),
      files w !! path = Some (File true wr data) →
      json_load data = inl (JList items) →
      json_load (json_dump (JList out)).1 = inl (JList out) →
      add_ids_to_pictos path None w = (inl n, w1) →
      ∃ w2,
        add_ids_to_pictos path None w1 = (inl n, w2) ∧ files w2 = files w1.
Proof.
  intros Hitems. destruct (stamp_from_total 0 items Hitems) as [out Hout].
  exists out. split_and!; [done | by eapply stamp_from_again |].
  intros path w w1 wr data n Hfile Hload Hback Hrun.
  apply add_ids_returns_inv in Hrun
    as (wr' & data' & doc & out' & Hfile' & Hload' & Hann & -> & Hdump & _ & ->).
  rewrite Hfile in Hfile'. injection Hfile' as <- <-.
  rewrite Hload in Hload'. injection Hload' as <-.
  simpl in Hann. rewrite Hout in Hann. injection Hann as <-.
  set (text := (json_dump (JList out)).1) in *.
  set (w1 := rewritten (destination path None) text (entered path None w)).
  assert (files w1 !! path = Some (File true true text)) as Hfile1.
  { unfold w1, rewritten. simpl. rewrite Hfile. apply lookup_insert_eq. }
  eexists. split.
  - apply (add_ids_returns path None w1 true text (JList out) out);
      [done | done | by eapply stamp_from_again | | done].
    unfold can_write. change (destination path None) with path.
    by rewrite Hfile1.
  - fold text. change (destination path None) with path.
    unfold rewritten at 1. change (files (entered path None w1)) with (files w1).
    rewrite Hfile1. by apply insert_id.
Qed.

(** [annotation_is_idempotent] on two runs in place, the second on the
    file the first has written. *)
Lemma annotation_is_idempotent_witness :
  let out := [JDict [("name", JStr "cat"); ("id", JInt 1)]] in
  let w := Scenario.holding Scenario.cat_99 in
  let w1 := (@add_ids_to_pictos Mini.runtime default_path None w).2 in
  annotate (JList out) = inl out ∧
  ∃ w2,
    @add_ids_to_pictos Mini.runtime default_path None w1 = (inl 1, w2) ∧
    files w2 = files w1.
Proof.
  intros out w w1.
  destruct (annotation_is_idempotent (RT := Mini.runtime)
              [JDict [("name", JStr "cat"); ("id", JInt 99)]])
    as (out' & Hout & Hagain & Hruns); [repeat constructor |].
  assert (out' = out) as -> by (vm_compute in Hout; by injection Hout).
  split; [exact Hagain |].
  apply (Hruns default_path w w1 true Scenario.cat_99 1); by vm_compute.
Defined.

(** C10. The result depends on the parsed document only.  Take two runs, in
    any two worlds and on any paths, whose input files parse to the same
    document: if both return, they return the same count and their
    destinations hold the same text, the encoding of the one annotated
    list. *)
Theorem annotate_is_deterministic `{RT : Runtime}
    (input1 input2 : string) (output1 output2 : option string)
    (w1 w2 w1' w2' : world) (wr1 wr2 : bool) (data1 data2 : string)
    (doc : json) (n1 n2 : Z) :
  files w1 !! input1 = Some (File true wr1 data1) →
  files w2 !! input2 = Some (File true wr2 data2) →
  json_load data1 = inl doc →
  json_load data2 = inl doc →
  add_ids_to_pictos input1 output1 w1 = (inl n1, w1') →
  add_ids_to_pictos input2 output2 w2 = (inl n2, w2') →
  n1 = n2 ∧
  ∃ out r1 r2,
    annotate doc = inl out ∧
    files w1' !! destination input1 output1
    = Some (File r1 true (json_dump (JList out)).1) ∧
    files w2' !! destination input2 output2
    = Some (File r2 true (json_dump (JList out)).1).
Proof.
  intros Hfile1 Hfile2 Hload1 Hload2 Hrun1 Hrun2.
  apply add_ids_returns_inv in Hrun1
    as (? & ? & doc1 & out1 & Hf1 & Hl1 & Hann1 & -> & _ & _ & ->).
  apply add_ids_returns_inv in Hrun2
    as (? & ? & doc2 & out2 & Hf2 & Hl2 & Hann2 & -> & _ & _ & ->).
  rewrite Hfile1 in Hf1. injection Hf1 as <- <-.
  rewrite Hfile2 in Hf2. injection Hf2 as <- <-.
  rewrite Hload1 in Hl1. injection Hl1 as <-.
  rewrite Hload2 in Hl2. injection Hl2 as <-.
  rewrite Hann1 in Hann2. injection Hann2 as <-.
  split; [done |].
  destruct (files_rewritten (destination input1 output1)
              (json_dump (JList out1)).1 (entered input1 output1 w1))
    as [r1 Hr1].
  destruct (files_rewritten (destination input2 output2)
              (json_dump (JList out1)).1 (entered input2 output2 w2))
    as [r2 Hr2].
  by exists out1, r1, r2.
Qed.

(** [annotate_is_deterministic] on two worlds whose inputs differ in
    layout, path and permissions. *)
Lemma annotate_is_deterministic_witness :
  let w1 := Scenario.holding Scenario.cat_dog in
  let w2 := Scenario.elsewhere in
  let run1 := @add_ids_to_pictos Mini.runtime default_path None w1 in
  let run2 := @add_ids_to_pictos Mini.runtime "in.json" (Some "out.json") w2 in
  2 = 2 ∧
  ∃ out r1 r2,
    annotate (JList [JDict [("name", JStr "cat")];
                     JDict [("name", JStr "dog")]]) = inl out ∧
    files run1.2 !! default_path
    = Some (File r1 true (Mini.dump (JList out)).1) ∧
    files run2.2 !! "out.json"
    = Some (File r2 true (Mini.dump (JList out)).1).
Proof.
  intros w1 w2 run1 run2.
  apply (annotate_is_deterministic (RT := Mini.runtime)
           default_path "in.json" None (Some "out.json")
           w1 w2 run1.2 run2.2 true false
           Scenario.cat_dog Scenario.cat_dog_spaced
           (JList [JDict [("name", JStr "cat")]; JDict [("name", JStr "dog")]])
           2 2); by vm_compute.
Defined.

(** ** The scenarios of the specification, run on [Mini] *)

(** Two records: numbered 1 and 2, the count is 2, the file is rewritten
    with an indentation of two spaces. *)
Example scenario_two_records :
  let run := @main Mini.runtime (Scenario.holding Scenario.cat_dog) in
  run.1 = inl 0 ∧
  stdout run.2
  = ["Successfully added IDs to 2 pictos in 'src/assets/pictos_list.json'."] ∧
  files run.2 !! default_path
  = Some (File true true (Mini.text "[
  {
    `name`: `cat`,
    `id`: 1
  },
  {
    `name`: `dog`,
    `id`: 2
  }
]")).
Proof. by vm_compute. Qed.

(** The empty list: the count is 0 and the empty list is written. *)
Example scenario_empty_list :
  let run := @main Mini.runtime (Scenario.holding "[]") in
  run.1 = inl 0 ∧
  stdout run.2
  = ["Successfully added IDs to 0 pictos in 'src/assets/pictos_list.json'."] ∧
  files run.2 !! default_path = Some (File true true "[]").
Proof. by vm_compute. Qed.

(** A record that comes with an ['id']: the key keeps its place and takes
    the new value. *)
Example scenario_prior_id :
  let run := @main Mini.runtime (Scenario.holding Scenario.cat_99) in
  run.1 = inl 0 ∧
  files run.2 !! default_path
  = Some (File true true (Mini.text "[
  {
    `name`: `cat`,
    `id`: 1
  }
]")).
Proof. by vm_compute. Qed.

(** A destination that cannot be opened for writing: the exception of
    [open] is reported and the file is as it was. *)
Example scenario_read_only_file :
  let w := World {[ default_path := File true false Scenario.cat_dog ]} ∅ [] [] in
  let run := @main Mini.runtime w in
  run.1 = inl 1 ∧
  stdout run.2
  = ["Error: [Errno 13] Permission denied: 'src/assets/pictos_list.json'"] ∧
  files run.2 = files w.
Proof. by vm_compute. Qed.

(** * Further properties of the script *)

(** ** The loop, beyond the claims *)

Section more_loop_facts.
Implicit Types (i : Z) (x y : json) (l out : list json).

Lemma stamp_from_app i l1 l2 :
  stamp_from i (l1 ++ l2)
  = match stamp_from i l1 with
    | inr e => inr e
    | inl out1 =>
        match stamp_from (i + Z.of_nat (length l1)) l2 with
        | inr e => inr e
        | inl out2 => inl (out1 ++ out2)
        end
    end.
Proof.
  revert i. induction l1 as [|x l1 IH]; intros i.
  - simpl. rewrite Z.add_0_r. by destruct (stamp_from i l2).
  - simpl app. rewrite !stamp_from_cons.
    destruct (setitem x "id" (JInt (i + 1))) as [x'|e]; [|done].
    rewrite IH. destruct (stamp_from (i + 1) l1) as [out1|e]; [|done].
    replace (i + 1 + Z.of_nat (length l1))
      with (i + Z.of_nat (length (x :: l1))) by (simpl length; lia).
    by destruct (stamp_from _ l2).
Qed.

(** What the loop leaves at position [k]: a record numbered [k + 1]. *)
Lemma annotate_lookup items out (k : nat) y :
  annotate (JList items) = inl out → out !! k = Some y →
  ∃ d, items !! k = Some (JDict d) ∧
       y = JDict (Dict.setitem "id" (JInt (Z.of_nat k + 1)) d).
Proof.
  simpl. intros Hout Hy.
  destruct (items !! k) as [x|] eqn:Hx.
  - rewrite (stamp_from_lookup _ _ _ _ _ Hout Hx) in Hy. injection Hy as <-.
    apply stamp_from_inv in Hout as [Hd _]. rewrite Forall_lookup in Hd.
    specialize (Hd k x Hx). destruct x as [| | | | | |d]; try done.
    exists d. by rewrite Z.add_0_l.
  - apply lookup_ge_None in Hx. rewrite <- (stamp_from_length _ _ _ Hout) in Hx.
    apply lookup_ge_None in Hx. by rewrite Hx in Hy.
Qed.

Lemma setitem_fresh {V : Type} (k : string) (v : V) (d : list (string * V)) :
  k ∉ Dict.keys d → Dict.setitem k v d = d ++ [(k, v)].
Proof.
  unfold Dict.keys. induction d as [|[k' v'] d IH]; [done |].
  cbn [fmap list_fmap fst Dict.setitem]. fold (fmap (M:=list) (@fst string V)).
  intros Hk. apply not_elem_of_cons in Hk as [Hne Hk].
  rewrite decide_False by done. by rewrite IH.
Qed.
End more_loop_facts.

(** X1. The identifiers written by a successful annotation are pairwise
    distinct and lie between 1 and the number of elements. *)
Theorem ids_are_distinct_and_in_range (items out : list json) :
  annotate (JList items) = inl out →
  (∀ (i : nat) (y : json), out !! i = Some y →
     ∃ n, id_of y = Some (JInt n) ∧ 1 ≤ n ≤ Z.of_nat (length items)) ∧
  (∀ (i j : nat) (y z : json),
     out !! i = Some y → out !! j = Some z → id_of y = id_of z → i = j).
Proof.
  intros Hout. split.
  - intros i y Hy.
    destruct (annotate_lookup _ _ _ _ Hout Hy) as (d & Hx & ->).
    exists (Z.of_nat i + 1). split; [apply get_setitem |].
    apply lookup_lt_Some in Hx. lia.
  - intros i j y z Hy Hz.
    destruct (annotate_lookup _ _ _ _ Hout Hy) as (d & _ & ->).
    destruct (annotate_lookup _ _ _ _ Hout Hz) as (d' & _ & ->).
    simpl. rewrite !get_setitem. intros [= ?]. lia.
Qed.

(** [ids_are_distinct_and_in_range] on two records that came with the same
    ['id']. *)
Lemma ids_are_distinct_and_in_range_witness :
  let items := [JDict [("id", JInt 5)]; JDict [("id", JInt 5)]] in
  let out := [JDict [("id", JInt 1)]; JDict [("id", JInt 2)]] in
  (∀ (i : nat) (y : json), out !! i = Some y →
     ∃ n, id_of y = Some (JInt n) ∧ 1 ≤ n ≤ 2) ∧
  (∀ (i j : nat) (y z : json),
     out !! i = Some y → out !! j = Some z → id_of y = id_of z → i = j).
Proof.
  intros items out. apply (ids_are_distinct_and_in_range items out).
  reflexivity.
Defined.

(** X2. The assignment keeps the order of the keys of a record: a record
    that has the key ['id'] keeps it where it is, a record that has not
    gets it after its last key. *)
Theorem id_key_keeps_its_place (items out : list json) (i : nat)
    (d : list (string * json)) :
  annotate (JList items) = inl out →
  items !! i = Some (JDict d) →
  ∃ d',
    out !! i = Some (JDict d') ∧
    ("id" ∈ Dict.keys d → Dict.keys d' = Dict.keys d) ∧
    ("id" ∉ Dict.keys d → d' = d ++ [("id", JInt (Z.of_nat i + 1))]).
Proof.
  intros Hout Hx. simpl in Hout.
  exists (Dict.setitem "id" (JInt (Z.of_nat i + 1)) d). split_and!.
  - rewrite (stamp_from_lookup _ _ _ _ _ Hout Hx). simpl.
    by rewrite Z.add_0_l.
  - intros Hin. rewrite keys_setitem. by rewrite decide_True.
  - apply setitem_fresh.
Qed.

(** [id_key_keeps_its_place] on a record whose first key is ['id']. *)
Lemma id_key_keeps_its_place_witness :
  ∃ d',
    [JDict [("id", JInt 1); ("name", JStr "cat")]] !! 0%nat = Some (JDict d') ∧
    ("id" ∈ Dict.keys [("id", JInt 99); ("name", JStr "cat")] →
     Dict.keys d' = ["id"; "name"]) ∧
    ("id" ∉ Dict.keys [("id", JInt 99); ("name", JStr "cat")] →
     d' = [("id", JInt 99); ("name", JStr "cat")] ++ [("id", JInt 1)]).
Proof.
  apply (id_key_keeps_its_place
           [JDict [("id", JInt 99); ("name", JStr "cat")]]
           [JDict [("id", JInt 1); ("name", JStr "cat")]] 0
           [("id", JInt 99); ("name", JStr "cat")]); reflexivity.
Defined.

(** X3. Identifiers depend on the position only: when records are appended
    to a list, the annotation of the longer list starts with the annotation
    of the shorter one, and goes on numbering from its length. *)
Theorem appended_records_keep_earlier_ids (l1 l2 out : list json) :
  annotate (JList (l1 ++ l2)) = inl out →
  annotate (JList l1) = inl (take (length l1) out) ∧
  stamp_from (Z.of_nat (length l1)) l2 = inl (drop (length l1) out).
Proof.
  simpl. rewrite stamp_from_app.
  destruct (stamp_from 0 l1) as [out1|] eqn:H1; [|done].
  rewrite Z.add_0_l.
  destruct (stamp_from (Z.of_nat (length l1)) l2) as [out2|] eqn:H2; [|done].
  intros [= <-]. rewrite <- (stamp_from_length _ _ _ H1).
  by rewrite take_app_length, drop_app_length.
Qed.

(** [appended_records_keep_earlier_ids] on one record followed by one
    more. *)
Lemma appended_records_keep_earlier_ids_witness :
  let cat := JDict [("name", JStr "cat")] in
  let dog := JDict [("name", JStr "dog")] in
  let out := [JDict [("name", JStr "cat"); ("id", JInt 1)];
              JDict [("name", JStr "dog"); ("id", JInt 2)]] in
  annotate (JList [cat]) = inl (take 1 out) ∧
  stamp_from 1 [dog] = inl (drop 1 out).
Proof.
  intros cat dog out.
  apply (appended_records_keep_earlier_ids [cat] [dog] out). reflexivity.
Defined.

(** ** Runs, beyond the claims *)

Section more_run_facts.
Context `{RT : Runtime}.
Implicit Types (w : world) (e : exn) (path : string).

Lemma files_rewritten_ne path other text w :
  other ≠ path → files (rewritten path text w) !! other = files w !! other.
Proof. intros Hne. unfold rewritten. simpl. by apply lookup_insert_ne. Qed.

(** The world a run leaves: the call is logged, and either nothing else
    has changed or the destination has been rewritten. *)
Lemma add_ids_world input_file output_file w r w' :
  add_ids_to_pictos input_file output_file w = (r, w') →
  w' = entered input_file output_file w
  ∨ ∃ text,
      w' = rewritten (destination input_file output_file) text
             (entered input_file output_file w).
Proof.
  rewrite add_ids_to_pictos_spec.
  destruct (open_read _ _) as [[data|e] w1]; [|intros [= _ <-]; by left].
  destruct (json_load data) as [doc|e]; [|intros [= _ <-]; by left].
  destruct (annotate doc) as [out|e]; [|intros [= _ <-]; by left].
  rewrite dump_file_spec.
  destruct (open_write _ _) as [[[]|e] w2]; [|intros [= _ <-]; by left].
  simpl. destruct (json_dump (JList out)).2; intros [= _ <-]; right; eauto.
Qed.

Lemma open_write_cannot path w :
  ¬ can_write path w →
  ∃ e, open_failure path e ∧ open_write path w = (inr e, w).
Proof.
  intros Hno. destruct (open_write path w) as [[[]|e] w'] eqn:Hopen;
    apply open_write_inv in Hopen.
  - by destruct Hopen as [Hcan _].
  - destruct Hopen as (_ & -> & Hcase). exists e. split; [|done].
    destruct Hcase as [-> | [-> | ->]]; constructor.
Qed.

Lemma pretty_errno :
  pretty 2 = "2" ∧ pretty 13 = "13" ∧ pretty 21 = "21".
Proof. by vm_compute. Qed.
End more_run_facts.

(** X4. A call changes no path other than its destination, whatever its
    outcome, and prints nothing. *)
Theorem only_the_destination_changes `{RT : Runtime} (input_file : string)
    (output_file : option string) (w w' : world) (r : Z + exn)
    (other : string) :
  add_ids_to_pictos input_file output_file w = (r, w') →
  other ≠ destination input_file output_file →
  files w' !! other = files w !! other ∧ stdout w' = stdout w.
Proof.
  intros Hrun Hne. split; [|by eapply add_ids_frame].
  apply add_ids_world in Hrun as [-> | [text ->]]; [done |].
  by rewrite files_rewritten_ne.
Qed.

(** [only_the_destination_changes] on a run from ["in.json"] to
    ["out.json"]: the input is as it was. *)
Lemma only_the_destination_changes_witness :
  let w := Scenario.elsewhere in
  let run := @add_ids_to_pictos Mini.runtime "in.json" (Some "out.json") w in
  files run.2 !! "in.json" = files w !! "in.json" ∧ stdout run.2 = stdout w.
Proof.
  intros w run.
  apply (only_the_destination_changes (RT := Mini.runtime) "in.json"
           (Some "out.json") w run.2 run.1 "in.json"); by vm_compute.
Defined.

(** X5. Called on a path at which nothing exists, the function raises the
    [FileNotFoundError] of [open]; no file changes, and the destination is
    not created. *)
Theorem missing_input_raises `{RT : Runtime} (input_file : string)
    (output_file : option string) (w : world) :
  files w !! input_file = None →
  add_ids_to_pictos input_file output_file w
  = (inr (Exn FileNotFoundError
            ("[Errno 2] No such file or directory: " +:+ str_repr input_file)),
     entered input_file output_file w).
Proof.
  intros Hfile. rewrite add_ids_to_pictos_spec. unfold open_read.
  change (files (entered input_file output_file w)) with (files w).
  rewrite Hfile. unfold os_error.
  by rewrite (proj1 pretty_errno).
Qed.

(** [missing_input_raises] in a world without files, with a destination
    apart. *)
Lemma missing_input_raises_witness :
  let run := @add_ids_to_pictos Mini.runtime "in.json" (Some "out.json")
               Scenario.empty_world in
  run.1 = inr (Exn FileNotFoundError
                 "[Errno 2] No such file or directory: 'in.json'") ∧
  files run.2 !! "out.json" = None.
Proof.
  intros run.
  pose proof (missing_input_raises (RT := Mini.runtime) "in.json"
                (Some "out.json") Scenario.empty_world eq_refl) as Hrun.
  unfold run. rewrite Hrun. by vm_compute.
Defined.

(** X6. When the decoder rejects the input, its exception leaves the call
    as it is, and no file changes: the destination is neither created nor
    emptied. *)
Theorem decoder_error_propagates `{RT : Runtime} (input_file : string)
    (output_file : option string) (w : world) (wr : bool) (data : string)
    (e : exn) :
  files w !! input_file = Some (File true wr data) →
  json_load data = inr e →
  add_ids_to_pictos input_file output_file w
  = (inr e, entered input_file output_file w).
Proof.
  intros Hfile Hload. rewrite add_ids_to_pictos_spec.
  rewrite (open_read_file _ _ wr data) by done. by rewrite Hload.
Qed.

(** [decoder_error_propagates] on a file that holds a truncated list. *)
Lemma decoder_error_propagates_witness :
  let w := Scenario.holding "[1," in
  @add_ids_to_pictos Mini.runtime default_path None w
  = (inr (Exn JSONDecodeError "Expecting value"), entered default_path None w).
Proof.
  intros w.
  apply (decoder_error_propagates (RT := Mini.runtime) default_path None w
           true "[1," (Exn JSONDecodeError "Expecting value")); by vm_compute.
Defined.

(** X7. When the list is annotated but the destination cannot be opened
    for writing, the call raises the exception of [open] and no file
    changes. *)
Theorem unwritable_destination_raises `{RT : Runtime} (input_file : string)
    (output_file : option string) (w : world) (wr : bool) (data : string)
    (doc : json) (out : list json) :
  files w !! input_file = Some (File true wr data) →
  json_load data = inl doc →
  annotate doc = inl out →
  ¬ can_write (destination input_file output_file) w →
  ∃ e,
    open_failure (destination input_file output_file) e ∧
    add_ids_to_pictos input_file output_file w
    = (inr e, entered input_file output_file w).
Proof.
  intros Hfile Hload Hann Hno.
  destruct (open_write_cannot (destination input_file output_file)
              (entered input_file output_file w) Hno) as (e & He & Hopen).
  exists e. split; [done |]. rewrite add_ids_to_pictos_spec.
  rewrite (open_read_file _ _ wr data) by done. rewrite Hload, Hann.
  by rewrite dump_file_spec, Hopen.
Qed.

(** [unwritable_destination_raises] on a read-only file annotated in
    place. *)
Lemma unwritable_destination_raises_witness :
  let w := World {[ default_path := File true false Scenario.cat_dog ]} ∅ [] [] in
  ∃ e,
    @open_failure Mini.runtime default_path e ∧
    @add_ids_to_pictos Mini.runtime default_path None w
    = (inr e, entered default_path None w).
Proof.
  intros w.
  apply (unwritable_destination_raises (RT := Mini.runtime) default_path None
           w false Scenario.cat_dog
           (JList [JDict [("name", JStr "cat")]; JDict [("name", JStr "dog")]])
           [JDict [("name", JStr "cat"); ("id", JInt 1)];
            JDict [("name", JStr "dog"); ("id", JInt 2)]]); by vm_compute.
Defined.

(** X8. The rewriting is not atomic: the destination is emptied before the
    list is encoded, so when the encoder fails part-way the call raises its
    exception and the destination holds the part that was written; in
    place, the data read is lost. *)
Theorem failed_write_leaves_partial_file `{RT : Runtime} (input_file : string)
    (output_file : option string) (w : world) (wr : bool) (data : string)
    (doc : json) (out : list json) (text : string) (e : exn) :
  files w !! input_file = Some (File true wr data) →
  json_load data = inl doc →
  annotate doc = inl out →
  can_write (destination input_file output_file) w →
  json_dump (JList out) = (text, Some e) →
  ∃ w' r,
    add_ids_to_pictos input_file output_file w = (inr e, w') ∧
    files w' !! destination input_file output_file = Some (File r true text).
Proof.
  intros Hfile Hload Hann Hcan Hdump.
  destruct (files_rewritten (destination input_file output_file) text
              (entered input_file output_file w)) as [r Hr].
  eexists _, r. split; [|exact Hr]. rewrite add_ids_to_pictos_spec.
  rewrite (open_read_file _ _ wr data) by done. rewrite Hload, Hann.
  rewrite dump_file_spec, open_write_can by done. by rewrite Hdump.
Qed.

(** [failed_write_leaves_partial_file] on two records annotated in place
    with the failing encoder: the file is left with the opening bracket. *)
Lemma failed_write_leaves_partial_file_witness :
  let w := Scenario.holding Scenario.cat_dog in
  ∃ w' r,
    @add_ids_to_pictos Faulty.runtime default_path None w
    = (inr (Exn UnicodeEncodeError "surrogates not allowed"), w') ∧
    files w' !! default_path = Some (File r true "[").
Proof.
  intros w.
  apply (failed_write_leaves_partial_file (RT := Faulty.runtime) default_path
           None w true Scenario.cat_dog
           (JList [JDict [("name", JStr "cat")]; JDict [("name", JStr "dog")]])
           [JDict [("name", JStr "cat"); ("id", JInt 1)];
            JDict [("name", JStr "dog"); ("id", JInt 2)]]
           "[" (Exn UnicodeEncodeError "surrogates not allowed"));
    by vm_compute.
Defined.

(** X9. With a destination apart from the input, a second call with the
    same arguments returns the same count and leaves every file as the
    first call left it: the input is not consumed. *)
Theorem rerun_to_separate_output `{RT : Runtime} (input_file output : string)
    (w w1 : world) (n : Z) :
  output ≠ input_file →
  add_ids_to_pictos input_file (Some output) w = (inl n, w1) →
  ∃ w2,
    add_ids_to_pictos input_file (Some output) w1 = (inl n, w2) ∧
    files w2 = files w1.
Proof.
  intros Hne Hrun.
  apply add_ids_returns_inv in Hrun
    as (wr & data & doc & out & Hfile & Hload & Hann & -> & Hdump & _ & ->).
  change (destination input_file (Some output)) with output.
  set (text := (json_dump (JList out)).1).
  set (w1 := rewritten output text (entered input_file (Some output) w)).
  destruct (files_rewritten output text (entered input_file (Some output) w))
    as [r Hr]. fold w1 in Hr.
  assert (files w1 !! input_file = Some (File true wr data)) as Hfile1.
  { unfold w1. by rewrite files_rewritten_ne. }
  eexists. split.
  - apply (add_ids_returns input_file (Some output) w1 wr data doc out);
      [done.. | | done].
    unfold can_write. change (destination input_file (Some output)) with output.
    by rewrite Hr.
  - change (destination input_file (Some output)) with output. fold text.
    unfold rewritten at 1.
    change (files (entered input_file (Some output) w1)) with (files w1).
    rewrite Hr. by apply insert_id.
Qed.

(** [rerun_to_separate_output] on two runs from ["in.json"] to
    ["out.json"]. *)
Lemma rerun_to_separate_output_witness :
  let w1 := (@add_ids_to_pictos Mini.runtime "in.json" (Some "out.json")
               Scenario.elsewhere).2 in
  ∃ w2,
    @add_ids_to_pictos Mini.runtime "in.json" (Some "out.json") w1
    = (inl 2, w2) ∧
    files w2 = files w1.
Proof.
  intros w1.
  apply (rerun_to_separate_output (RT := Mini.runtime) "in.json" "out.json"
           Scenario.elsewhere w1 2); by vm_compute.
Defined.

(** ** The driver, beyond the claims *)

(** X10. When the default input is a writable file that holds a list of
    records and the encoder succeeds, the driver returns 0, prints the
    success line with the number of records, has called the function once,
    in place, and has rewritten the file with the annotated list. *)
Theorem main_annotates_in_place `{RT : Runtime} (w : world) (data : string)
    (items out : list json) :
  files w !! default_path = Some (File true true data) →
  json_load data = inl (JList items) →
  annotate (JList items) = inl out →
  (json_dump (JList out)).2 = None →
  main w
  = (inl 0,
     World (<[default_path := File true true (json_dump (JList out)).1]>
              (files w))
       (orphans w)
       (stdout w
        ++ ["Successfully added IDs to " +:+ pretty (Z.of_nat (length items))
            +:+ " pictos in 'src/assets/pictos_list.json'."])
       (calls w ++ [(default_path, None)])).
Proof.
  intros Hfile Hload Hann Hdump. unfold main. fold default_path.
  rewrite main_on_spec, Hfile.
  rewrite (add_ids_returns default_path None w true data (JList items) out)
    by (try done; unfold can_write, destination; simpl; by rewrite Hfile).
  rewrite (stamp_from_length _ _ _ Hann).
  unfold printed, rewritten, destination, success_line. simpl.
  by rewrite Hfile.
Qed.

(** [main_annotates_in_place] on two records. *)
Lemma main_annotates_in_place_witness :
  let w := Scenario.holding Scenario.cat_dog in
  let out := [JDict [("name", JStr "cat"); ("id", JInt 1)];
              JDict [("name", JStr "dog"); ("id", JInt 2)]] in
  @main Mini.runtime w
  = (inl 0,
     World (<[default_path := File true true (Mini.dump (JList out)).1]>
              (files w))
       ∅
       ["Successfully added IDs to 2 pictos in 'src/assets/pictos_list.json'."]
       [(default_path, None)]).
Proof.
  intros w out.
  apply (main_annotates_in_place (RT := Mini.runtime) w Scenario.cat_dog
           [JDict [("name", JStr "cat")]; JDict [("name", JStr "dog")]] out);
    by vm_compute.
Defined.

(** X11. Whatever the world, the driver prints exactly one line, changes no
    path other than its input path, and calls the function once, in place,
    when something exists at that path and not at all otherwise. *)
Theorem main_prints_one_line_and_keeps_other_files `{RT : Runtime}
    (w : world) :
  ∃ code w' line,
    main w = (inl code, w') ∧
    stdout w' = stdout w ++ [line] ∧
    (∀ other, other ≠ default_path → files w' !! other = files w !! other) ∧
    calls w'
    = calls w ++ (if files w !! default_path is Some _
                  then [(default_path, None)] else []).
Proof.
  unfold main. fold default_path. rewrite main_on_spec.
  destruct (files w !! default_path) as [nd|] eqn:Hfile.
  - destruct (add_ids_to_pictos default_path None w) as [[n|e] w1] eqn:Hrun;
      destruct (add_ids_frame _ _ _ _ _ Hrun) as (Hout & _ & Hcalls);
      eexists _, _, _; (split; [done |]); simpl; rewrite Hout, Hcalls;
      (split_and!; [done | | done]); intros other Hne;
      apply add_ids_world in Hrun as [-> | [text ->]]; try done;
      by rewrite files_rewritten_ne.
  - eexists _, _, _. split; [done |]. simpl. by rewrite app_nil_r.
Qed.

(** X12. Something that exists at the input path but cannot be read as a
    file (a directory, a file without read permission) passes the existence
    check: the driver calls the function, reports the exception of [open]
    and returns 1, and no file changes. *)
Theorem unreadable_input_is_reported_by_open `{RT : Runtime} (w : world)
    (nd : node) :
  files w !! default_path = Some nd →
  (∀ wr data, nd ≠ File true wr data) →
  ∃ reason,
    (reason = "[Errno 21] Is a directory: " ∧ nd = Dir
     ∨ reason = "[Errno 13] Permission denied: " ∧ nd ≠ Dir) ∧
    main w
    = (inl 1,
       World (files w) (orphans w)
         (stdout w ++ ["Error: " +:+ reason +:+ str_repr default_path])
         (calls w ++ [(default_path, None)])).
Proof.
  intros Hfile Hnd. unfold main. fold default_path.
  rewrite main_on_spec, Hfile, add_ids_to_pictos_spec. unfold open_read.
  change (files (entered default_path None w)) with (files w). rewrite Hfile.
  destruct (pretty_errno) as (_ & H13 & H21).
  destruct nd as [[] wr data|].
  - by destruct (Hnd wr data).
  - exists "[Errno 13] Permission denied: ". split; [by right |].
    unfold os_error, printed. simpl. by rewrite H13.
  - exists "[Errno 21] Is a directory: ". split; [by left |].
    unfold os_error, printed. simpl. by rewrite H21.
Qed.

(** [unreadable_input_is_reported_by_open] on a directory at the input
    path. *)
Lemma unreadable_input_is_reported_by_open_witness :
  let w := World {[ default_path := Dir ]} ∅ [] [] in
  ∃ reason,
    (reason = "[Errno 21] Is a directory: " ∧ Dir = Dir
     ∨ reason = "[Errno 13] Permission denied: " ∧ Dir ≠ Dir) ∧
    @main Mini.runtime w
    = (inl 1,
       World (files w) (orphans w)
         (stdout w ++ ["Error: " +:+ reason +:+ Mini.repr default_path])
         (calls w ++ [(default_path, None)])).
Proof.
  intros w.
  apply (unreadable_input_is_reported_by_open (RT := Mini.runtime) w Dir);
    [by vm_compute | done].
Defined.
